(** Shallow embedding of the video player screen
    ([src/screens/VideoPlayerScreen.tsx]), the notification scheduler and the
    URL validator of the House-of-Edtech React Native app.

    React state: a handler reads the state of the render it was created in
    and enqueues setter calls; every setter here is given a plain value, so
    the state after the re-render is the state with the last value written to
    each field.  A handler is therefore a function from the rendered state to
    the next state together with the list of commands it issues to the host
    (player, orientation, alerts, overlay animation), in issue order. *)

From Stdlib Require Import ZArith Lia List Bool String Ascii QArith Qround.
Import ListNotations.
Open Scope Z_scope.

(** * Player status and screen state *)

(** [AVPlaybackStatusSuccess], the fields the screen reads.  [durationMillis]
    is optional in expo-av. *)
Record AVPlaybackStatusSuccess := mkStatus {
  positionMillis : Z;
  durationMillis : option Z;
  st_isPlaying : bool;
  st_isBuffering : bool;
  didJustFinish : bool
}.

(** [AVPlaybackStatus]: either a loaded status or an unloaded/error one. *)
Inductive AVPlaybackStatus :=
| Loaded (s : AVPlaybackStatusSuccess)
| NotLoaded.

(** The component state of [VideoPlayerScreen] (the [useState] hooks), plus
    whether [videoRef.current] is set (the [Video] element is mounted). *)
Record Screen := mkScreen {
  currentVideoUrl : string;
  inputVideoUrl : string;
  isPlaying : bool;
  isFullscreen : bool;
  duration : Z;
  position : Z;
  volume : Q;
  isBuffering : bool;
  controlsVisible : bool;
  isSeeking : bool;
  videoMounted : bool
}.

Inductive Orientation := LANDSCAPE_LEFT | PORTRAIT.

(** Commands a handler issues to its collaborators. *)
Inductive Cmd :=
| SetPositionAsync (ms : Z)          (* videoRef.current.setPositionAsync *)
| PlayAsync                          (* videoRef.current.playAsync *)
| PauseAsync                         (* videoRef.current.pauseAsync *)
| LockAsync (o : Orientation)        (* ScreenOrientation.lockAsync *)
| FadeInControls                     (* fadeInControls() *)
| AlertMsg (title msg : string).     (* Alert.alert *)

(** [x || 0] on a JS number that is an integer. *)
Definition or_zero (x : Z) : Z := if Z.eqb x 0 then 0 else x.

(** [x || 0] on an optional JS number. *)
Definition opt_or_zero (x : option Z) : Z :=
  match x with Some v => or_zero v | None => 0 end.

Definition set_position (s : Screen) (p : Z) : Screen :=
  {| currentVideoUrl := currentVideoUrl s; inputVideoUrl := inputVideoUrl s;
     isPlaying := isPlaying s; isFullscreen := isFullscreen s;
     duration := duration s; position := p; volume := volume s;
     isBuffering := isBuffering s; controlsVisible := controlsVisible s;
     isSeeking := isSeeking s; videoMounted := videoMounted s |}.

Definition set_isPlaying (s : Screen) (b : bool) : Screen :=
  {| currentVideoUrl := currentVideoUrl s; inputVideoUrl := inputVideoUrl s;
     isPlaying := b; isFullscreen := isFullscreen s;
     duration := duration s; position := position s; volume := volume s;
     isBuffering := isBuffering s; controlsVisible := controlsVisible s;
     isSeeking := isSeeking s; videoMounted := videoMounted s |}.

Definition set_duration (s : Screen) (d : Z) : Screen :=
  {| currentVideoUrl := currentVideoUrl s; inputVideoUrl := inputVideoUrl s;
     isPlaying := isPlaying s; isFullscreen := isFullscreen s;
     duration := d; position := position s; volume := volume s;
     isBuffering := isBuffering s; controlsVisible := controlsVisible s;
     isSeeking := isSeeking s; videoMounted := videoMounted s |}.

Definition set_isBuffering (s : Screen) (b : bool) : Screen :=
  {| currentVideoUrl := currentVideoUrl s; inputVideoUrl := inputVideoUrl s;
     isPlaying := isPlaying s; isFullscreen := isFullscreen s;
     duration := duration s; position := position s; volume := volume s;
     isBuffering := b; controlsVisible := controlsVisible s;
     isSeeking := isSeeking s; videoMounted := videoMounted s |}.

Definition set_isSeeking (s : Screen) (b : bool) : Screen :=
  {| currentVideoUrl := currentVideoUrl s; inputVideoUrl := inputVideoUrl s;
     isPlaying := isPlaying s; isFullscreen := isFullscreen s;
     duration := duration s; position := position s; volume := volume s;
     isBuffering := isBuffering s; controlsVisible := controlsVisible s;
     isSeeking := b; videoMounted := videoMounted s |}.

Definition set_isFullscreen (s : Screen) (b : bool) : Screen :=
  {| currentVideoUrl := currentVideoUrl s; inputVideoUrl := inputVideoUrl s;
     isPlaying := isPlaying s; isFullscreen := b;
     duration := duration s; position := position s; volume := volume s;
     isBuffering := isBuffering s; controlsVisible := controlsVisible s;
     isSeeking := isSeeking s; videoMounted := videoMounted s |}.

Definition set_currentVideoUrl (s : Screen) (u : string) : Screen :=
  {| currentVideoUrl := u; inputVideoUrl := inputVideoUrl s;
     isPlaying := isPlaying s; isFullscreen := isFullscreen s;
     duration := duration s; position := position s; volume := volume s;
     isBuffering := isBuffering s; controlsVisible := controlsVisible s;
     isSeeking := isSeeking s; videoMounted := videoMounted s |}.

Definition set_inputVideoUrl (s : Screen) (u : string) : Screen :=
  {| currentVideoUrl := currentVideoUrl s; inputVideoUrl := u;
     isPlaying := isPlaying s; isFullscreen := isFullscreen s;
     duration := duration s; position := position s; volume := volume s;
     isBuffering := isBuffering s; controlsVisible := controlsVisible s;
     isSeeking := isSeeking s; videoMounted := videoMounted s |}.

(** * Playback handlers *)

(** [videoRef.current?.cmd]: the command is issued only when mounted. *)
Definition on_ref (s : Screen) (c : Cmd) : list Cmd :=
  if videoMounted s then [c] else [].

(** [handlePlaybackStatusUpdate] (lines 125-142). *)
Definition handlePlaybackStatusUpdate (s : Screen) (status : AVPlaybackStatus)
  : Screen * list Cmd :=
  match status with
  | NotLoaded => (s, [])
  | Loaded st =>
      let s1 := if negb (isSeeking s) then set_position s (or_zero (positionMillis st))
                else s in
      let s2 := set_isPlaying s1 (st_isPlaying st) in
      let s3 := set_duration s2 (opt_or_zero (durationMillis st)) in
      let s4 := set_isBuffering s3 (st_isBuffering st) in
      if didJustFinish st then
        (set_isPlaying s4 false, on_ref s (SetPositionAsync 0))
      else (s4, [])
  end.

(** A sequence of status ticks, each handled by the state the previous
    one left; the commands are collected in order. *)
Fixpoint run_ticks (s : Screen) (ticks : list AVPlaybackStatus)
  : Screen * list Cmd :=
  match ticks with
  | [] => (s, [])
  | t :: ts =>
      let '(s1, c1) := handlePlaybackStatusUpdate s t in
      let '(s2, c2) := run_ticks s1 ts in
      (s2, c1 ++ c2)
  end.

(** [handleSeekStart] (lines 144-147). *)
Definition handleSeekStart (s : Screen) : Screen * list Cmd :=
  (set_isSeeking s true, on_ref s PauseAsync).

(** [handleSeek] (lines 156-162). *)
Definition handleSeek (s : Screen) (newPosition : Z) : Screen * list Cmd :=
  if videoMounted s then
    (set_position s newPosition, [SetPositionAsync newPosition; FadeInControls])
  else (s, []).

(** The slider value given to [onSlidingComplete]: a number or an array of
    numbers (only non-empty arrays are represented). *)
Inductive SliderValue :=
| VNum (v : Z)
| VArr (v : Z) (rest : list Z).

(** [handleSeekComplete] (lines 149-154). *)
Definition handleSeekComplete (s : Screen) (value : SliderValue) : Screen * list Cmd :=
  let newPosition := match value with VArr v _ => v | VNum v => v end in
  let '(s1, c1) := handleSeek s newPosition in
  (set_isSeeking s1 false, c1 ++ on_ref s PlayAsync).

Definition SKIP_TIME_MS : Z := 10000.

Inductive Direction := forward | backward.

(** [handleSkip] (lines 165-172). *)
Definition handleSkip (s : Screen) (direction : Direction) : Screen * list Cmd :=
  if videoMounted s then
    let newPosition := match direction with
                       | forward => Z.min (position s + SKIP_TIME_MS) (duration s)
                       | backward => Z.max (position s - SKIP_TIME_MS) 0
                       end in
    (set_position s newPosition, [SetPositionAsync newPosition; FadeInControls])
  else (s, []).

Fixpoint run_skips (s : Screen) (ds : list Direction) : Screen :=
  match ds with
  | [] => s
  | d :: ds' => run_skips (fst (handleSkip s d)) ds'
  end.

(** [handleFullscreenUpdate] (lines 204-216); [fullscreenUpdate] is the
    numeric code of the expo-av event. *)
Definition WILL_PRESENT : Z := 1.
Definition WILL_DISMISS : Z := 2.

Definition handleFullscreenUpdate (s : Screen) (fullscreenUpdate : Z)
  : Screen * list Cmd :=
  if Z.eqb fullscreenUpdate WILL_PRESENT then
    (set_isFullscreen s true, [LockAsync LANDSCAPE_LEFT; FadeInControls])
  else if Z.eqb fullscreenUpdate WILL_DISMISS then
    (set_isFullscreen s false, [LockAsync PORTRAIT; FadeInControls])
  else (s, [FadeInControls]).

Fixpoint run_fullscreen_events (s : Screen) (evs : list Z) : Screen * list Cmd :=
  match evs with
  | [] => (s, [])
  | e :: es =>
      let '(s1, c1) := handleFullscreenUpdate s e in
      let '(s2, c2) := run_fullscreen_events s1 es in
      (s2, c1 ++ c2)
  end.

Definition is_lock (o : Orientation) (c : Cmd) : bool :=
  match c, o with
  | LockAsync LANDSCAPE_LEFT, LANDSCAPE_LEFT => true
  | LockAsync PORTRAIT, PORTRAIT => true
  | _, _ => false
  end.

Definition count_locks (o : Orientation) (cs : list Cmd) : nat :=
  List.length (filter (is_lock o) cs).

Definition count_events (code : Z) (evs : list Z) : nat :=
  List.length (filter (Z.eqb code) evs).

(** * Strings *)

(** Whitespace removed by [String.prototype.trim], restricted to the
    characters an [ascii] string can hold: TAB, LF, VT, FF, CR, SPACE. *)
Definition is_ws (c : ascii) : bool :=
  let n := nat_of_ascii c in
  (Nat.eqb n 9 || Nat.eqb n 10 || Nat.eqb n 11 || Nat.eqb n 12 || Nat.eqb n 13
   || Nat.eqb n 32)%bool.

Fixpoint trim_start (s : string) : string :=
  match s with
  | EmptyString => EmptyString
  | String c r => if is_ws c then trim_start r else s
  end.

Fixpoint rev_str (s : string) (acc : string) : string :=
  match s with
  | EmptyString => acc
  | String c r => rev_str r (String c acc)
  end.

Definition trim_end (s : string) : string :=
  rev_str (trim_start (rev_str s EmptyString)) EmptyString.

(** [s.trim()]. *)
Definition trim (s : string) : string := trim_end (trim_start s).

(** [s.includes(t)]. *)
Fixpoint includes (s t : string) : bool :=
  if String.prefix t s then true
  else match s with
       | EmptyString => false
       | String _ r => includes r t
       end.

(** [handleUrlChange] (lines 219-229). *)
Definition handleUrlChange (s : Screen) : Screen * list Cmd :=
  let u := inputVideoUrl s in
  if (Nat.ltb 10 (String.length (trim u)) && includes u "http")%bool then
    (set_position (set_duration (set_isPlaying (set_currentVideoUrl s u) false) 0) 0,
     [AlertMsg "URL Changed" "New stream source loaded."])
  else (s, [AlertMsg "Invalid URL" "Please enter a valid stream URL."]).

(** Loading a stream: the text input is set to [url], then the Load Stream
    button runs [handleUrlChange] on the re-rendered state. *)
Definition loadStream (s : Screen) (url : string) : Screen * list Cmd :=
  handleUrlChange (set_inputVideoUrl s url).

(** * Overlay auto-hide timer ([fadeInControls], [fadeOutControls],
      lines 95-107) *)

Module Overlay.

(** Completion callbacks given to [Animated.timing(fadeAnim, ...).start]:
    the fade-in callback arms the hide timer when [isPlaying] (the value
    captured by the render); the fade-out callback hides the controls. *)
Inductive AnimCb :=
| ArmHide (isPlaying : bool)
| SetHidden.

(** [timers]: pending [setTimeout] handles, each running [fadeOutControls]
    when it fires; [hideControlsTimer]: the ref's current handle;
    [anim]: the animation running on [fadeAnim] with its callback. *)
Record Overlay := mkOverlay {
  timers : list nat;
  hideControlsTimer : option nat;
  next_id : nat;
  anim : option AnimCb;
  visible : bool
}.

Definition init : Overlay :=
  {| timers := []; hideControlsTimer := None; next_id := 1; anim := None;
     visible := true |}.

Definition set_anim (o : Overlay) (a : option AnimCb) : Overlay :=
  {| timers := timers o; hideControlsTimer := hideControlsTimer o;
     next_id := next_id o; anim := a; visible := visible o |}.

Definition set_visible (o : Overlay) (b : bool) : Overlay :=
  {| timers := timers o; hideControlsTimer := hideControlsTimer o;
     next_id := next_id o; anim := anim o; visible := b |}.

(** [clearTimeout(id)]; the ref keeps its value. *)
Definition clearTimeout (id : nat) (o : Overlay) : Overlay :=
  {| timers := remove Nat.eq_dec id (timers o);
     hideControlsTimer := hideControlsTimer o;
     next_id := next_id o; anim := anim o; visible := visible o |}.

(** [hideControlsTimer.current = setTimeout(fadeOutControls, 3000)]. *)
Definition arm_timer (o : Overlay) : Overlay :=
  {| timers := timers o ++ [next_id o];
     hideControlsTimer := Some (next_id o);
     next_id := S (next_id o); anim := anim o; visible := visible o |}.

Definition run_cb (cb : AnimCb) (o : Overlay) : Overlay :=
  match cb with
  | ArmHide true => arm_timer o
  | ArmHide false => o
  | SetHidden => set_visible o false
  end.

(** [Animated.timing(fadeAnim, ...).start(cb)]: starting an animation on a
    value stops the one running on it, whose callback runs at once (with
    [finished: false]); the new one then runs until its end event. *)
Definition start_animation (cb : AnimCb) (o : Overlay) : Overlay :=
  let o1 := match anim o with
            | Some prev => run_cb prev (set_anim o None)
            | None => o
            end in
  set_anim o1 (Some cb).

Definition fadeOutControls (o : Overlay) : Overlay :=
  start_animation SetHidden o.

Definition fadeInControls (isPlaying : bool) (o : Overlay) : Overlay :=
  let o1 := match hideControlsTimer o with
            | Some id => clearTimeout id o
            | None => o
            end in
  start_animation (ArmHide isPlaying) (set_visible o1 true).

(** Events of the UI event loop that touch the overlay. *)
Inductive Event :=
| EvFadeIn (isPlaying : bool)   (* a handler calls fadeInControls() *)
| EvAnimationEnd                (* the running animation finishes *)
| EvTimerFire (id : nat).       (* a pending hide timer fires *)

Definition step (o : Overlay) (e : Event) : Overlay :=
  match e with
  | EvFadeIn b => fadeInControls b o
  | EvAnimationEnd =>
      match anim o with
      | Some cb => run_cb cb (set_anim o None)
      | None => o
      end
  | EvTimerFire id =>
      if existsb (Nat.eqb id) (timers o)
      then fadeOutControls (clearTimeout id o)
      else o
  end.

Definition run (o : Overlay) (es : list Event) : Overlay := fold_left step es o.

Definition pending (o : Overlay) : nat := List.length (timers o).

End Overlay.

(** * Taps on the overlay ([handleTap], lines 110-117) *)

Module OverlayTap.

(** [handleTap]: [opacityBelowOne] is [fadeAnim.__getValue() < 1], the
    opacity the running animation has reached when the tap arrives. *)
Definition handleTap (isPlaying opacityBelowOne : bool) (o : Overlay.Overlay)
  : Overlay.Overlay :=
  if (negb (Overlay.visible o) || opacityBelowOne)%bool
  then Overlay.fadeInControls isPlaying o
  else if isPlaying then Overlay.fadeOutControls o
  else o.

Inductive UiEvent :=
| Base (e : Overlay.Event)
| Tap (isPlaying opacityBelowOne : bool).

Definition step (o : Overlay.Overlay) (e : UiEvent) : Overlay.Overlay :=
  match e with
  | Base e' => Overlay.step o e'
  | Tap p b => handleTap p b o
  end.

Definition run (o : Overlay.Overlay) (es : list UiEvent) : Overlay.Overlay :=
  fold_left step es o.


End OverlayTap.

(** * Notification scheduling ([scheduleLocalNotification],
      [src/unnamed/part_002]) *)

Definition MIN_DELAY : Z := 2.
Definition MAX_DELAY : Z := 5.

(** JS numbers as rationals.  [Math.random() * 4] multiplies a double by a
    power of two, which is exact, so [Math.floor] of it is [Qfloor]. *)
Record ScheduleOptions := mkOptions {
  title : string;
  body : string;
  delaySeconds : option Q;
  data : option (list (string * string))
}.

Record NotificationRequest := mkRequest {
  content_title : string;
  content_body : string;
  content_data : list (string * string);
  trigger_seconds : Q;
  trigger_channelId : string
}.

(** The request passed to [Notifications.scheduleNotificationAsync];
    [rnd] is the value returned by [Math.random()]. *)
Definition scheduleLocalNotification (opts : ScheduleOptions) (rnd : Q)
  : NotificationRequest :=
  let delay := match delaySeconds opts with
               | Some d => d
               | None => (inject_Z (Qfloor (rnd * inject_Z (MAX_DELAY - MIN_DELAY + 1)))
                          + inject_Z MIN_DELAY)%Q
               end in
  {| content_title := title opts; content_body := body opts;
     content_data := match data opts with Some d => d | None => [] end;
     trigger_seconds := delay; trigger_channelId := "default" |}.

(** * URL validation ([validateAndNormalizeUrl], [src/unnamed/part_001]) *)

Record UrlValidationResult := mkResult {
  isValid : bool;
  normalizedUrl : option string
}.

(** The fields of a WHATWG [URL] object the validator reads. *)
Record URLObject := mkURL {
  protocol : string;
  href : string
}.

Definition lower_ascii (c : ascii) : ascii :=
  let n := nat_of_ascii c in
  if (Nat.leb 65 n && Nat.leb n 90)%bool then ascii_of_nat (n + 32) else c.

(** [s.toLowerCase()] on ASCII. *)
Fixpoint toLowerCase (s : string) : string :=
  match s with
  | EmptyString => EmptyString
  | String c r => String (lower_ascii c) (toLowerCase r)
  end.

(** Case-insensitive prefix test. *)
Fixpoint prefix_ci (p s : string) : bool :=
  match p, s with
  | EmptyString, _ => true
  | String a p', String b s' =>
      (Ascii.eqb (lower_ascii a) (lower_ascii b) && prefix_ci p' s')%bool
  | String _ _, EmptyString => false
  end.

(** [/^https?:\/\//i.test(s)]. *)
Definition has_http_scheme (s : string) : bool :=
  (prefix_ci "http://" s || prefix_ci "https://" s)%bool.

Section Validate.

(** [new URL(s)]: [None] when the constructor throws.  The parser is the
    host's, so the validator is stated for every parser. *)
Variable URL : string -> option URLObject.

Definition invalid : UrlValidationResult :=
  {| isValid := false; normalizedUrl := None |}.

Definition validateAndNormalizeUrl (rawUrl : string) : UrlValidationResult :=
  let trimmedUrl := trim rawUrl in
  if String.eqb trimmedUrl "" then invalid
  else
    let urlToTest := if negb (has_http_scheme trimmedUrl)
                     then ("https://" ++ trimmedUrl)%string
                     else trimmedUrl in
    match URL urlToTest with
    | None => invalid
    | Some urlObject =>
        let p := toLowerCase (protocol urlObject) in
        if (String.eqb p "http:" || String.eqb p "https:")%bool
        then {| isValid := true; normalizedUrl := Some (href urlObject) |}
        else invalid
    end.

End Validate.

(** * Time labels ([formatTime], lines 52-58) *)

Definition digit (d : Z) : ascii := ascii_of_nat (48 + Z.to_nat d).

Fixpoint to_dec_aux (fuel : nat) (n : Z) (acc : string) : string :=
  match fuel with
  | O => acc
  | S f =>
      let acc' := String (digit (n mod 10)) acc in
      if n <? 10 then acc' else to_dec_aux f (n / 10) acc'
  end.

(** [String(n)] for an integer [n]: its decimal digits ([log2 n + 1]
    bounds their number), with a minus sign when negative. *)
Definition js_String (n : Z) : string :=
  let a := Z.abs n in
  let ds := to_dec_aux (S (Z.to_nat (Z.log2 a))) a EmptyString in
  if n <? 0 then String "-" ds else ds.

Fixpoint zeros (k : nat) : string :=
  match k with O => EmptyString | S k' => String "0" (zeros k') end.

(** [s.padStart(n, "0")]. *)
Definition padStart (n : nat) (s : string) : string :=
  if Nat.leb n (String.length s) then s else (zeros (n - String.length s) ++ s)%string.

(** [formatTime]: [!ms] holds for 0; [Math.floor] is [Z.div] and JS [%] is
    the truncated remainder [Z.rem]. *)
Definition formatTime (ms : Z) : string :=
  if Z.eqb ms 0 then "00:00"%string
  else
    let totalSeconds := ms / 1000 in
    let seconds := padStart 2 (js_String (Z.rem totalSeconds 60)) in
    let minutes := padStart 2 (js_String (totalSeconds / 60)) in
    (minutes ++ ":" ++ seconds)%string.

(** Reading an ["MM:SS"] label back as a number of seconds. *)
Definition digit_val (c : ascii) : option Z :=
  let n := nat_of_ascii c in
  if (Nat.leb 48 n && Nat.leb n 57)%bool then Some (Z.of_nat (n - 48)) else None.

Definition parse_label (s : string) : option Z :=
  match s with
  | String m1 (String m2 (String sep (String s1 (String s2 EmptyString)))) =>
      if Ascii.eqb sep ":" then
        match digit_val m1, digit_val m2, digit_val s1, digit_val s2 with
        | Some a, Some b, Some c, Some d => Some (60 * (10 * a + b) + 10 * c + d)
        | _, _, _, _ => None
        end
      else None
  | _ => None
  end.

(** * Web view screen ([src/screens/WebViewScreen.tsx]) *)

Record NotificationConfig := mkConfig {
  delay : string;
  message : string;
  targetScreen : string;
  isNavigable : bool
}.

Record WebScreen := mkWeb {
  permissionsGranted : bool;
  inputUrl : string;
  loadedUrl : string;
  isLoading : bool;
  hasNotifiedOnLoad : bool;
  isModalVisible : bool;
  webViewError : option string;
  config : NotificationConfig
}.

Inductive WCmd :=
| Schedule (opts : ScheduleOptions)   (* scheduleLocalNotification(opts) *)
| WAlert (title msg : string).        (* Alert.alert *)

Definition with_load (w : WebScreen) (loading notified : bool) (err : option string)
  (loaded input : string) : WebScreen :=
  {| permissionsGranted := permissionsGranted w; inputUrl := input;
     loadedUrl := loaded; isLoading := loading; hasNotifiedOnLoad := notified;
     isModalVisible := isModalVisible w; webViewError := err; config := config w |}.

Definition with_modal (w : WebScreen) (visible : bool) (c : NotificationConfig)
  : WebScreen :=
  {| permissionsGranted := permissionsGranted w; inputUrl := inputUrl w;
     loadedUrl := loadedUrl w; isLoading := isLoading w;
     hasNotifiedOnLoad := hasNotifiedOnLoad w; isModalVisible := visible;
     webViewError := webViewError w; config := c |}.

(** [loadWebView] (lines 73-92), with the host [URL] parser of the
    validator. *)
Definition loadWebView (URL : string -> option URLObject) (w : WebScreen)
  : WebScreen * list WCmd :=
  let r := validateAndNormalizeUrl URL (inputUrl w) in
  match isValid r, normalizedUrl r with
  | true, Some n =>
      if String.eqb n "" then
        (w, [WAlert "Invalid URL" "Please enter a valid website link (must be http/https)."])
      else if negb (String.eqb n (loadedUrl w)) then
        (with_load w (isLoading w) false None n n, [])
      else
        (with_load w (isLoading w) (hasNotifiedOnLoad w) (webViewError w) (loadedUrl w) n, [])
  | _, _ =>
      (w, [WAlert "Invalid URL" "Please enter a valid website link (must be http/https)."])
  end.

(** [handleLoadingStart] (lines 94-97). *)
Definition handleLoadingStart (w : WebScreen) : WebScreen :=
  with_load w true (hasNotifiedOnLoad w) None (loadedUrl w) (inputUrl w).

(** The [nativeEvent] fields [handleLoadingEnd] reads. *)
Record LoadEvent := mkLoadEvent { ne_loading : bool; ne_title : string }.

Definition load_notification (url : string) : ScheduleOptions :=
  {| title := "App Status Update";
     body := ("The website at " ++ url ++ " is fully loaded.")%string;
     delaySeconds := Some 1%Q; data := None |}.

(** [handleLoadingEnd] (lines 99-114). *)
Definition handleLoadingEnd (w : WebScreen) (ev : LoadEvent) : WebScreen * list WCmd :=
  let isSuccessful := (negb (ne_loading ev)
                       && negb (String.eqb (ne_title ev) "Webpage not available"))%bool in
  if (permissionsGranted w && negb (hasNotifiedOnLoad w) && isSuccessful)%bool then
    (with_load w false true (webViewError w) (loadedUrl w) (inputUrl w),
     [Schedule (load_notification (loadedUrl w))])
  else (with_load w false (hasNotifiedOnLoad w) (webViewError w) (loadedUrl w) (inputUrl w), []).

(** Events of the [WebView] element as the render wires them: [onError]
    calls [handleLoadingEnd] too (lines 224-229). *)
Inductive WebEvent :=
| OnLoadStart
| OnLoadEnd (ev : LoadEvent)
| OnError (ev : LoadEvent).

Definition web_step (w : WebScreen) (e : WebEvent) : WebScreen * list WCmd :=
  match e with
  | OnLoadStart => (handleLoadingStart w, [])
  | OnLoadEnd ev | OnError ev => handleLoadingEnd w ev
  end.

Fixpoint run_web (w : WebScreen) (es : list WebEvent) : WebScreen * list WCmd :=
  match es with
  | [] => (w, [])
  | e :: es' =>
      let '(w1, c1) := web_step w e in
      let '(w2, c2) := run_web w1 es' in
      (w2, c1 ++ c2)
  end.

(** [openModal] (lines 138-150) and [closeModal] (line 152). *)
Definition openModal (w : WebScreen) (isNav : bool) : WebScreen :=
  with_modal w true
    {| delay := "3";
       message := if isNav then "Tap me to see the HLS Video Player!"
                  else "Your action was confirmed.";
       targetScreen := if isNav then "VideoPlayer" else "WebView";
       isNavigable := isNav |}.

Definition closeModal (w : WebScreen) : WebScreen := with_modal w false (config w).

(** [parseInt(s, 10)]: leading white space, an optional sign, then the
    longest run of decimal digits; [None] (NaN) when there is no digit. *)
Fixpoint lead_digits (s : string) (acc : Z) (n : nat) : Z * nat :=
  match s with
  | String c r =>
      match digit_val c with
      | Some d => lead_digits r (10 * acc + d) (S n)
      | None => (acc, n)
      end
  | EmptyString => (acc, n)
  end.

Definition parseInt (s : string) : option Z :=
  let t := trim_start s in
  let '(sign, r) := match t with
                    | String "-" r => (-1, r)
                    | String "+" r => (1, r)
                    | _ => (1, t)
                    end in
  let '(v, n) := lead_digits r 0 O in
  if Nat.eqb n 0 then None else Some (sign * v).

(** [handleSendNotification] (lines 154-182). *)
Definition handleSendNotification (w : WebScreen) : WebScreen * list WCmd :=
  let c := config w in
  match parseInt (delay c) with
  | Some p =>
      if ((p <? 1) || (10 <? p))%bool then
        (w, [WAlert "Invalid Delay" "Please enter an integer delay between 1 and 10 seconds."])
      else if permissionsGranted w then
        (closeModal w,
         [Schedule {| title := if isNavigable c then "Custom Navigation Alert"
                               else "Custom Action Alert";
                      body := message c;
                      delaySeconds := Some (inject_Z p);
                      data := Some (if isNavigable c
                                    then [("targetScreen"%string, targetScreen c)]
                                    else []) |}])
      else (w, [WAlert "Error" "Notification permissions not granted."])
  | None =>
      (w, [WAlert "Invalid Delay" "Please enter an integer delay between 1 and 10 seconds."])
  end.

(** The delay field's [onChangeText]: [text.replace(/[^0-9]/g, "")]. *)
Fixpoint keep_digits (s : string) : string :=
  match s with
  | EmptyString => EmptyString
  | String c r =>
      match digit_val c with
      | Some _ => String c (keep_digits r)
      | None => keep_digits r
      end
  end.

(** * Notification taps ([handleNotificationTaps], [src/unnamed/part_002]) *)

(** Property names an array has besides its indices: [length] and the
    string-keyed properties of [Array.prototype] and [Object.prototype]. *)
Definition array_property_names : list string :=
  ["length"; "at"; "concat"; "copyWithin"; "entries"; "every"; "fill"; "filter";
   "find"; "findIndex"; "findLast"; "findLastIndex"; "flat"; "flatMap";
   "forEach"; "includes"; "indexOf"; "join"; "keys"; "lastIndexOf"; "map";
   "pop"; "push"; "reduce"; "reduceRight"; "reverse"; "shift"; "slice";
   "some"; "sort"; "splice"; "toLocaleString"; "toReversed"; "toSorted";
   "toSpliced"; "toString"; "unshift"; "values"; "with"; "constructor";
   "hasOwnProperty"; "isPrototypeOf"; "propertyIsEnumerable"; "valueOf";
   "__proto__"; "__defineGetter__"; "__defineSetter__"; "__lookupGetter__";
   "__lookupSetter__"]%string.

(** [key in arr] for an array of [n] elements: [key] is an index
    ([String(i)] for some [i < n]) or one of the other property names. *)
Definition js_in_array (key : string) (n : nat) : bool :=
  (existsb (fun i => String.eqb (js_String (Z.of_nat i)) key) (seq 0 n)
   || existsb (String.eqb key) array_property_names)%bool.

Fixpoint lookup_key (k : string) (d : list (string * string)) : option string :=
  match d with
  | [] => None
  | (k', v) :: r => if String.eqb k k' then Some v else lookup_key k r
  end.

(** The response listener of [handleNotificationTaps] (lines 187-201): the
    route it navigates to, if any, for a tapped notification's [data] and the
    navigator's route names. *)
Definition on_notification_response (data : list (string * string))
  (routeNames : list string) : option string :=
  match lookup_key "targetScreen" data with
  | Some t =>
      if (negb (String.eqb t "") && js_in_array t (List.length routeNames))%bool
      then Some t else None
  | None => None
  end.

(** * Sample states *)

Definition INITIAL_HLS_URL : string :=
  "https://test-streams.mux.dev/x36xhzz/x36xhzz.m3u8".

(** The screen as first rendered, with the [Video] element mounted. *)
Definition initial_screen : Screen :=
  {| currentVideoUrl := INITIAL_HLS_URL; inputVideoUrl := INITIAL_HLS_URL;
     isPlaying := false; isFullscreen := false; duration := 0; position := 0;
     volume := 1%Q; isBuffering := false; controlsVisible := true;
     isSeeking := false; videoMounted := true |}.

Definition tick (pos : Z) (dur : option Z) (playing buffering finished : bool)
  : AVPlaybackStatus :=
  Loaded (mkStatus pos dur playing buffering finished).

Example tick_sample :
  position (fst (handlePlaybackStatusUpdate initial_screen
                   (tick 4000 (Some 120000) true false false))) = 4000.
Proof. reflexivity. Qed.

Example skip_sample :
  position (fst (handleSkip (set_duration (set_position initial_screen 115000) 120000)
                   forward)) = 120000.
Proof. reflexivity. Qed.

Example url_sample :
  fst (loadStream initial_screen "not-a-url")
  = set_inputVideoUrl initial_screen "not-a-url".
Proof. reflexivity. Qed.

(** * Lemmas on the status handler *)

Lemma run_ticks_app : forall ts1 ts2 s,
  fst (run_ticks s (ts1 ++ ts2)) = fst (run_ticks (fst (run_ticks s ts1)) ts2).
Proof.
  induction ts1 as [|t ts1 IH]; intros ts2 s; simpl; [reflexivity|].
  destruct (handlePlaybackStatusUpdate s t) as [s1 c1] eqn:E.
  specialize (IH ts2 s1).
  destruct (run_ticks s1 (ts1 ++ ts2)) as [a b] eqn:E1.
  destruct (run_ticks s1 ts1) as [a' b'] eqn:E2.
  simpl in *. destruct (run_ticks a' ts2). simpl in *. exact IH.
Qed.

Lemma handle_status_isSeeking : forall s t,
  isSeeking (fst (handlePlaybackStatusUpdate s t)) = isSeeking s.
Proof.
  intros s [st|]; [|reflexivity]. unfold handlePlaybackStatusUpdate.
  destruct (isSeeking s) eqn:E, (didJustFinish st); cbn; rewrite ?E; reflexivity.
Qed.

Lemma run_ticks_isSeeking : forall ts s,
  isSeeking (fst (run_ticks s ts)) = isSeeking s.
Proof.
  induction ts as [|t ts IH]; intros s; simpl; [reflexivity|].
  destruct (handlePlaybackStatusUpdate s t) as [s1 c1] eqn:E.
  destruct (run_ticks s1 ts) as [s2 c2] eqn:E2. simpl.
  rewrite <- (handle_status_isSeeking s t), E. simpl.
  rewrite <- (IH s1), E2. reflexivity.
Qed.

Lemma run_ticks_single : forall s t,
  fst (run_ticks s [t]) = fst (handlePlaybackStatusUpdate s t).
Proof.
  intros s t; simpl. destruct (handlePlaybackStatusUpdate s t); reflexivity.
Qed.

Lemma handle_status_seeking_position : forall s t,
  isSeeking s = true ->
  position (fst (handlePlaybackStatusUpdate s t)) = position s.
Proof.
  intros s [st|] H; simpl; [|reflexivity].
  rewrite H. destruct (didJustFinish st); reflexivity.
Qed.

Lemma run_ticks_seeking_position : forall ts s,
  isSeeking s = true -> position (fst (run_ticks s ts)) = position s.
Proof.
  induction ts as [|t ts IH]; intros s H; simpl; [reflexivity|].
  destruct (handlePlaybackStatusUpdate s t) as [s1 c1] eqn:E.
  destruct (run_ticks s1 ts) as [s2 c2] eqn:E2. simpl.
  assert (H1 : isSeeking s1 = true)
    by (rewrite <- H, <- (handle_status_isSeeking s t), E; reflexivity).
  rewrite <- (handle_status_seeking_position s t H), E. simpl.
  rewrite <- (IH s1 H1), E2. reflexivity.
Qed.

(** * Status reducer *)

(** Claim C1 (as stated) fails: with no seek gesture active, a tick reporting
    position 5000 with duration 1000 is displayed as 5000, not capped at the
    duration 1000. *)
Lemma C1_unclamped_position :
  ~ (forall s st,
       isSeeking s = false ->
       position (fst (handlePlaybackStatusUpdate s (Loaded st)))
       = Z.max 0 (Z.min (positionMillis st) (opt_or_zero (durationMillis st)))).
Proof.
  intro H.
  specialize (H initial_screen (mkStatus 5000 (Some 1000) true false false)
                eq_refl).
  vm_compute in H. discriminate H.
Qed.

(** Claim C1 (amended): while no seek gesture is active, after each loaded
    status tick of a sequence the displayed position is the tick's
    [positionMillis || 0], taken as reported (not clamped to the duration),
    and the duration is the tick's [durationMillis || 0]; an unloaded tick
    leaves the position as it was. *)
Theorem C1_position_follows_tick (s : Screen) (pre : list AVPlaybackStatus)
  (st : AVPlaybackStatusSuccess) (Hidle : isSeeking s = false) :
  position (fst (run_ticks s (pre ++ [Loaded st]))) = or_zero (positionMillis st)
  /\ duration (fst (run_ticks s (pre ++ [Loaded st])))
     = opt_or_zero (durationMillis st)
  /\ position (fst (run_ticks s (pre ++ [NotLoaded])))
     = position (fst (run_ticks s pre)).
Proof.
  rewrite !run_ticks_app, !run_ticks_single.
  assert (Hs : isSeeking (fst (run_ticks s pre)) = false)
    by (rewrite run_ticks_isSeeking; exact Hidle).
  set (s1 := fst (run_ticks s pre)) in *.
  unfold handlePlaybackStatusUpdate. rewrite Hs.
  destruct (didJustFinish st); cbn; repeat split.
Qed.

Lemma C1_position_follows_tick_witness :
  isSeeking initial_screen = false
  /\ position (fst (run_ticks initial_screen
                      ([tick 1000 (Some 1000) true false false] ++
                       [Loaded (mkStatus 5000 (Some 1000) true false false)])))
     = 5000.
Proof.
  split; [reflexivity|].
  apply (C1_position_follows_tick initial_screen
           [tick 1000 (Some 1000) true false false]
           (mkStatus 5000 (Some 1000) true false false) eq_refl).
Defined.

(** Claim C3: while a seek gesture is active, no status tick of a sequence
    changes the displayed position; a loaded tick still updates the duration
    ([durationMillis || 0]), the buffering flag and the playing flag (the
    tick's [isPlaying], forced to false when [didJustFinish]), and the
    gesture stays active. *)
Theorem C3_tick_during_seek_keeps_position (s : Screen) (ticks : list AVPlaybackStatus)
  (st : AVPlaybackStatusSuccess) (Hseek : isSeeking s = true) :
  position (fst (run_ticks s ticks)) = position s
  /\ (let s' := fst (handlePlaybackStatusUpdate s (Loaded st)) in
      position s' = position s
      /\ duration s' = opt_or_zero (durationMillis st)
      /\ isBuffering s' = st_isBuffering st
      /\ isPlaying s' = (st_isPlaying st && negb (didJustFinish st))%bool
      /\ isSeeking s' = true).
Proof.
  split; [apply run_ticks_seeking_position; exact Hseek|].
  unfold handlePlaybackStatusUpdate. rewrite Hseek.
  destruct (didJustFinish st); cbn;
    rewrite ?andb_true_r, ?andb_false_r; repeat split; exact Hseek.
Qed.

Lemma C3_tick_during_seek_keeps_position_witness :
  position (fst (run_ticks (set_isSeeking (set_position initial_screen 7000) true)
                   [tick 1000 (Some 90000) true false false;
                    tick 2000 (Some 90000) true true false])) = 7000.
Proof.
  apply (C3_tick_during_seek_keeps_position
           (set_isSeeking (set_position initial_screen 7000) true)
           [tick 1000 (Some 90000) true false false;
            tick 2000 (Some 90000) true true false]
           (mkStatus 0 None false false true) eq_refl).
Defined.

(** Claim C7: a loaded tick with [didJustFinish] sets [isPlaying] to false
    and issues exactly one command, a seek to 0. *)
Theorem C7_finish_rewinds (s : Screen) (st : AVPlaybackStatusSuccess)
  (Hmounted : videoMounted s = true) (Hfinished : didJustFinish st = true) :
  isPlaying (fst (handlePlaybackStatusUpdate s (Loaded st))) = false
  /\ snd (handlePlaybackStatusUpdate s (Loaded st)) = [SetPositionAsync 0].
Proof.
  unfold handlePlaybackStatusUpdate, on_ref. rewrite Hfinished, Hmounted.
  split; reflexivity.
Qed.

Lemma C7_finish_rewinds_witness :
  snd (handlePlaybackStatusUpdate initial_screen
         (tick 120000 (Some 120000) true false true)) = [SetPositionAsync 0].
Proof.
  apply (C7_finish_rewinds initial_screen (mkStatus 120000 (Some 120000) true false true)
           eq_refl eq_refl).
Defined.

(** * Fullscreen / orientation *)

Lemma handleFullscreenUpdate_locks : forall s e,
  count_locks LANDSCAPE_LEFT (snd (handleFullscreenUpdate s e))
  = (if Z.eqb WILL_PRESENT e then 1 else 0)%nat
  /\ count_locks PORTRAIT (snd (handleFullscreenUpdate s e))
     = (if Z.eqb WILL_DISMISS e then 1 else 0)%nat.
Proof.
  intros s e. unfold handleFullscreenUpdate.
  rewrite (Z.eqb_sym WILL_PRESENT e), (Z.eqb_sym WILL_DISMISS e).
  destruct (Z.eqb e WILL_PRESENT) eqn:E1.
  - apply Z.eqb_eq in E1. subst e. split; reflexivity.
  - destruct (Z.eqb e WILL_DISMISS); split; reflexivity.
Qed.

Lemma count_locks_app : forall o a b,
  count_locks o (a ++ b) = (count_locks o a + count_locks o b)%nat.
Proof.
  intros o a b. unfold count_locks. rewrite filter_app, length_app. reflexivity.
Qed.

Lemma count_events_cons : forall c e es,
  count_events c (e :: es)
  = ((if Z.eqb c e then 1 else 0) + count_events c es)%nat.
Proof.
  intros c e es. unfold count_events. simpl. destruct (Z.eqb c e); reflexivity.
Qed.

(** Claim C2 (as stated) fails: a will-present event re-emitted for the same
    edge issues a second landscape lock; two will-present events in a row
    from the windowed state give two lock calls, not at most one. *)
Lemma C2_duplicate_present_locks_twice :
  count_locks LANDSCAPE_LEFT
    (snd (run_fullscreen_events initial_screen [WILL_PRESENT; WILL_PRESENT])) = 2%nat.
Proof. reflexivity. Qed.

(** Claim C2 (amended): over any sequence of fullscreen events the handler
    issues exactly one landscape lock per will-present event and exactly one
    portrait lock per will-dismiss event, whatever the current fullscreen
    state; repeated events for the same edge are not filtered out, and other
    events issue no lock. *)
Theorem C2_one_lock_per_event : forall (evs : list Z) (s : Screen),
  count_locks LANDSCAPE_LEFT (snd (run_fullscreen_events s evs))
  = count_events WILL_PRESENT evs
  /\ count_locks PORTRAIT (snd (run_fullscreen_events s evs))
     = count_events WILL_DISMISS evs.
Proof.
  induction evs as [|e es IH]; intros s; [split; reflexivity|].
  cbn [run_fullscreen_events].
  destruct (handleFullscreenUpdate s e) as [s1 c1] eqn:E.
  destruct (run_fullscreen_events s1 es) as [s2 c2] eqn:E2.
  destruct (handleFullscreenUpdate_locks s e) as [HL HP].
  destruct (IH s1) as [IL IP]. rewrite E2 in IL, IP. rewrite E in HL, HP.
  simpl snd in *. rewrite !count_locks_app, HL, HP, IL, IP, !count_events_cons.
  split; reflexivity.
Qed.

(** * Seek controller *)

Definition slider_number (v : SliderValue) : Z :=
  match v with VNum x => x | VArr x _ => x end.

(** A mounted screen showing a 1000 ms stream. *)
Definition short_stream : Screen := set_duration initial_screen 1000.

(** Claim C4 (as stated) fails: committing the value 5000 on a 1000 ms
    stream seeks the player to 5000, not to the value clamped to 1000. *)
Lemma C4_commit_not_clamped :
  ~ (forall s v,
       videoMounted s = true ->
       In (SetPositionAsync (Z.max 0 (Z.min v (duration s))))
          (snd (handleSeekComplete s (VNum v)))).
Proof.
  intro H. specialize (H short_stream 5000 eq_refl).
  vm_compute in H. intuition discriminate.
Qed.

(** Claim C4 (amended): on a mounted screen, committing a seek gesture with
    value [v] (the first element when the slider gives an array) displays [v]
    as given, without clamping (the scrub slider's own range, 0 to the
    duration, bounds it), issues exactly one seek command, to [v], refreshes
    the overlay, resumes playback and clears the seeking flag. *)
Theorem C4_commit_seeks_once (s : Screen) (value : SliderValue)
  (Hmounted : videoMounted s = true) :
  handleSeekComplete s value
  = (set_isSeeking (set_position s (slider_number value)) false,
     [SetPositionAsync (slider_number value); FadeInControls; PlayAsync]).
Proof.
  unfold handleSeekComplete, handleSeek, on_ref. rewrite Hmounted.
  destruct value; reflexivity.
Qed.

Lemma C4_commit_seeks_once_witness :
  isSeeking (fst (handleSeekComplete (set_isSeeking short_stream true) (VNum 400)))
  = false.
Proof.
  rewrite (C4_commit_seeks_once (set_isSeeking short_stream true) (VNum 400) eq_refl).
  reflexivity.
Defined.

(** * Skip *)

Lemma handleSkip_mounted : forall s d, videoMounted s = true ->
  fst (handleSkip s d)
  = set_position s (match d with
                    | forward => Z.min (position s + SKIP_TIME_MS) (duration s)
                    | backward => Z.max (position s - SKIP_TIME_MS) 0
                    end).
Proof. intros s d H. unfold handleSkip. rewrite H. reflexivity. Qed.

Lemma run_skips_bounds : forall ds s,
  videoMounted s = true -> 0 <= position s <= duration s ->
  0 <= position (run_skips s ds) <= duration s
  /\ duration (run_skips s ds) = duration s.
Proof.
  induction ds as [|d ds IH]; intros s Hm Hb; simpl; [split; [exact Hb | reflexivity]|].
  rewrite handleSkip_mounted by exact Hm.
  set (p := match d with
            | forward => Z.min (position s + SKIP_TIME_MS) (duration s)
            | backward => Z.max (position s - SKIP_TIME_MS) 0
            end).
  assert (Hp : 0 <= p <= duration s)
    by (subst p; unfold SKIP_TIME_MS; destruct d; lia).
  destruct (IH (set_position s p) Hm Hp) as [H1 H2].
  split; [exact H1 | exact H2].
Qed.

(** Claim C6: on a mounted screen at position [P] with duration [D], skip
    forward sets the position to [min(P+10000, D)] and skip backward to
    [max(P-10000, 0)], each with one seek command to that position; any
    sequence of skips from a position in [0, D] stays in [0, D]; with
    [D = 120000] and [P = 5000] a backward skip gives 0. *)
Theorem C6_skip_clamps (s : Screen) (Hmounted : videoMounted s = true) :
  position (fst (handleSkip s forward)) = Z.min (position s + 10000) (duration s)
  /\ position (fst (handleSkip s backward)) = Z.max (position s - 10000) 0
  /\ snd (handleSkip s forward)
     = [SetPositionAsync (Z.min (position s + 10000) (duration s)); FadeInControls]
  /\ snd (handleSkip s backward)
     = [SetPositionAsync (Z.max (position s - 10000) 0); FadeInControls]
  /\ (forall ds, 0 <= position s <= duration s ->
        0 <= position (run_skips s ds) <= duration s)
  /\ (duration s = 120000 -> position s = 5000 ->
        position (fst (handleSkip s backward)) = 0).
Proof.
  unfold handleSkip, SKIP_TIME_MS. rewrite Hmounted. cbn [fst snd position set_position].
  split; [reflexivity|]. split; [reflexivity|].
  split; [reflexivity|]. split; [reflexivity|].
  split.
  - intros ds Hb. destruct (run_skips_bounds ds s Hmounted Hb) as [H _]. exact H.
  - intros _ Hp. rewrite Hp. reflexivity.
Qed.

Lemma C6_skip_clamps_witness :
  position (fst (handleSkip (set_duration (set_position initial_screen 5000) 120000)
                   backward)) = 0.
Proof.
  destruct (C6_skip_clamps (set_duration (set_position initial_screen 5000) 120000)
              eq_refl) as [_ [_ [_ [_ [_ H]]]]].
  apply H; reflexivity.
Defined.

(** * Stream source *)

(** Claim C8: loading ["not-a-url"] is rejected with an alert and leaves the
    current URL, position, duration and playing flag as they were (only the
    text input holds the typed text); loading ["https://host/new.m3u8"] is
    accepted, makes it the current URL and resets position and duration to 0
    and the playing flag to false. *)
Theorem C8_load_stream : forall s : Screen,
  let r := loadStream s "not-a-url"%string in
  let a := loadStream s "https://host/new.m3u8"%string in
  currentVideoUrl (fst r) = currentVideoUrl s
  /\ position (fst r) = position s
  /\ duration (fst r) = duration s
  /\ isPlaying (fst r) = isPlaying s
  /\ fst r = set_inputVideoUrl s "not-a-url"%string
  /\ snd r = [AlertMsg "Invalid URL" "Please enter a valid stream URL."]
  /\ currentVideoUrl (fst a) = "https://host/new.m3u8"%string
  /\ position (fst a) = 0
  /\ duration (fst a) = 0
  /\ isPlaying (fst a) = false
  /\ snd a = [AlertMsg "URL Changed" "New stream source loaded."].
Proof.
  intros s. repeat split; reflexivity.
Qed.

(** * Overlay timer *)

(** Claim C5 fails on the code: [fadeInControls] clears the pending timer
    and only then starts the fade-in animation whose completion callback arms
    the next timer.  Two calls in a row while playing: the second call's
    [clearTimeout] finds no timer yet, starting its animation stops the first
    one, whose callback arms a timer at once, and the second animation's end
    arms another one without clearing the first: two hide timers pending. *)
Theorem C5_two_fade_ins_leave_two_timers :
  Overlay.pending (Overlay.run Overlay.init
                     [Overlay.EvFadeIn true; Overlay.EvFadeIn true]) = 1%nat
  /\ Overlay.pending (Overlay.run Overlay.init
                        [Overlay.EvFadeIn true; Overlay.EvFadeIn true;
                         Overlay.EvAnimationEnd]) = 2%nat
  /\ Overlay.timers (Overlay.run Overlay.init
                       [Overlay.EvFadeIn true; Overlay.EvFadeIn true;
                        Overlay.EvAnimationEnd]) = [1; 2]%nat.
Proof. repeat split; reflexivity. Qed.

Example fade_in_after_animation_end :
  Overlay.pending (Overlay.run Overlay.init
                     [Overlay.EvFadeIn true; Overlay.EvAnimationEnd;
                      Overlay.EvFadeIn true; Overlay.EvAnimationEnd]) = 1%nat.
Proof. reflexivity. Qed.

(** * Notification delay *)

(** Claim C9: with [Math.random()] returning [rnd] in [0, 1), the trigger
    delay is [delaySeconds] itself when given, and otherwise an integer in
    [2, 5]. *)
Theorem C9_trigger_delay (opts : ScheduleOptions) (rnd : Q)
  (Hlo : (0 <= rnd)%Q) (Hhi : (rnd < 1)%Q) :
  match delaySeconds opts with
  | Some d => trigger_seconds (scheduleLocalNotification opts rnd) = d
  | None => exists z, trigger_seconds (scheduleLocalNotification opts rnd) = inject_Z z
                      /\ 2 <= z <= 5
  end.
Proof.
  unfold scheduleLocalNotification; cbn [trigger_seconds].
  destruct (delaySeconds opts) as [d|]; [reflexivity|].
  unfold MAX_DELAY, MIN_DELAY.
  replace (5 - 2 + 1) with 4 by reflexivity.
  set (x := (rnd * inject_Z 4)%Q).
  exists (Qfloor x + 2). rewrite inject_Z_plus. split; [reflexivity|].
  assert (Hx0 : (0 <= x)%Q)
    by (apply Qmult_le_0_compat; [exact Hlo | discriminate]).
  assert (Hx4 : (x < inject_Z 4)%Q).
  { unfold x. setoid_replace (inject_Z 4) with (1 * inject_Z 4)%Q at 2
      by (rewrite Qmult_1_l; reflexivity).
    apply Qmult_lt_compat_r; [reflexivity | exact Hhi]. }
  assert (Hf0 : 0 <= Qfloor x)
    by (change 0 with (Qfloor 0); apply Qfloor_resp_le; exact Hx0).
  assert (Hf4 : Qfloor x < 4).
  { rewrite Zlt_Qlt. apply (Qle_lt_trans _ x); [apply Qfloor_le | exact Hx4]. }
  lia.
Qed.

Lemma C9_trigger_delay_witness :
  exists z, trigger_seconds
              (scheduleLocalNotification (mkOptions "t" "b" None None) (3 # 4))
            = inject_Z z /\ 2 <= z <= 5.
Proof.
  exact (C9_trigger_delay (mkOptions "t" "b" None None) (3 # 4)
           ltac:(discriminate) ltac:(reflexivity)).
Defined.

(** * URL validation *)

(** Claim C10: for every [URL] parser and input, an empty or whitespace-only
    input is invalid with no URL; an input without an [http://]/[https://]
    prefix (in any case) is parsed as ["https://" ++ input], so when the
    parser accepts that string with protocol [https:] (a bare host name such
    as [google.com]) it is valid with the parser's [href], and when the parser
    throws it is invalid; and a valid result always comes from a parse whose
    lower-cased protocol is [http:] or [https:]. *)
Theorem C10_validate (URL : string -> option URLObject) (rawUrl : string) :
  (trim rawUrl = ""%string -> validateAndNormalizeUrl URL rawUrl = invalid)
  /\ (trim rawUrl <> ""%string -> has_http_scheme (trim rawUrl) = false ->
        (forall u, URL ("https://" ++ trim rawUrl)%string = Some u ->
           toLowerCase (protocol u) = "https:"%string ->
           validateAndNormalizeUrl URL rawUrl
           = {| isValid := true; normalizedUrl := Some (href u) |})
        /\ (URL ("https://" ++ trim rawUrl)%string = None ->
            validateAndNormalizeUrl URL rawUrl = invalid))
  /\ (isValid (validateAndNormalizeUrl URL rawUrl) = true ->
        exists u,
          URL (if has_http_scheme (trim rawUrl) then trim rawUrl
               else ("https://" ++ trim rawUrl)%string) = Some u
          /\ (toLowerCase (protocol u) = "http:"%string
              \/ toLowerCase (protocol u) = "https:"%string)
          /\ normalizedUrl (validateAndNormalizeUrl URL rawUrl) = Some (href u)).
Proof.
  unfold validateAndNormalizeUrl.
  destruct (String.eqb (trim rawUrl) "") eqn:Ee.
  - apply String.eqb_eq in Ee. split; [reflexivity|].
    split; [intro H; contradiction|]. discriminate.
  - apply String.eqb_neq in Ee. split; [intro H; contradiction|].
    split.
    + intros _ Hs. rewrite Hs. simpl negb. cbn iota. split.
      * intros u Hu Hp. rewrite Hu, Hp. reflexivity.
      * intros Hn. rewrite Hn. reflexivity.
    + destruct (has_http_scheme (trim rawUrl)); simpl negb; cbn iota;
        (destruct (URL _) as [u|]; [|discriminate]);
        destruct (String.eqb (toLowerCase (protocol u)) "http:") eqn:Eh;
        destruct (String.eqb (toLowerCase (protocol u)) "https:") eqn:Es;
        simpl; try discriminate; intros _; exists u;
        (split; [reflexivity|]); (split; [|reflexivity]);
        first [left; apply String.eqb_eq; exact Eh
              | right; apply String.eqb_eq; exact Es].
Qed.

(** With a parser that accepts ["https://google.com"], the bare host name is
    normalized to an https URL. *)
Example google_sample :
  validateAndNormalizeUrl
    (fun s => if String.eqb s "https://google.com" then
                Some (mkURL "https:" "https://google.com/") else None)
    "  google.com "
  = {| isValid := true; normalizedUrl := Some "https://google.com/"%string |}.
Proof. reflexivity. Qed.

(** * Time labels *)

Lemma digit_val_digit : forall d, 0 <= d < 10 -> digit_val (digit d) = Some d.
Proof.
  intros d Hd.
  assert (E : d = 0 \/ d = 1 \/ d = 2 \/ d = 3 \/ d = 4 \/ d = 5 \/ d = 6
              \/ d = 7 \/ d = 8 \/ d = 9) by lia.
  repeat (destruct E as [E|E]; [subst d; reflexivity|]); subst d; reflexivity.
Qed.

Lemma two_digits : forall x, 0 <= x < 100 ->
  padStart 2 (js_String x) = String (digit (x / 10)) (String (digit (x mod 10)) EmptyString).
Proof.
  intros x Hx. unfold js_String.
  rewrite Z.abs_eq by lia.
  destruct (Z.ltb_spec x 0) as [Hn|_]; [lia|].
  destruct (Z.ltb_spec x 10) as [Hl|Hl].
  - remember (Z.to_nat (Z.log2 x)) as k.
    cbn [to_dec_aux]. rewrite (proj2 (Z.ltb_lt x 10) Hl).
    rewrite (Z.div_small x 10), (Z.mod_small x 10) by lia. reflexivity.
  - assert (Hlog : 3 <= Z.log2 x)
      by (change 3 with (Z.log2 8); apply Z.log2_le_mono; lia).
    destruct (Z.to_nat (Z.log2 x)) as [|k] eqn:Ek; [lia|].
    cbn [to_dec_aux]. rewrite (proj2 (Z.ltb_ge x 10) Hl).
    assert (Hq : x / 10 < 10) by (apply Z.div_lt_upper_bound; lia).
    rewrite (proj2 (Z.ltb_lt (x / 10) 10) Hq).
    rewrite (Z.mod_small (x / 10) 10) by (split; [apply Z.div_pos|]; lia).
    reflexivity.
Qed.

(** [formatTime] on a time below 100 minutes gives a five-character
    ["MM:SS"] label from which the whole number of seconds [ms / 1000] is
    read back. *)
Theorem formatTime_label_roundtrip (ms : Z) (Hlo : 0 <= ms) (Hhi : ms < 6000000) :
  String.length (formatTime ms) = 5%nat
  /\ parse_label (formatTime ms) = Some (ms / 1000).
Proof.
  unfold formatTime.
  destruct (Z.eqb_spec ms 0) as [->|Hne]; [split; reflexivity|].
  set (t := ms / 1000).
  assert (Ht : 0 <= t < 6000)
    by (unfold t; split; [apply Z.div_pos | apply Z.div_lt_upper_bound]; lia).
  rewrite Z.rem_mod_nonneg by lia.
  assert (Hs : 0 <= t mod 60 < 60) by (apply Z.mod_pos_bound; lia).
  assert (Hm : 0 <= t / 60 < 100)
    by (split; [apply Z.div_pos | apply Z.div_lt_upper_bound]; lia).
  rewrite (two_digits (t mod 60) ltac:(lia)), (two_digits (t / 60) Hm).
  split; [reflexivity|].
  cbn [parse_label String.append].
  change (Ascii.eqb ":" ":") with true. cbv iota.
  rewrite !digit_val_digit
    by first [ apply Z.mod_pos_bound; lia
             | split; [apply Z.div_pos; lia | apply Z.div_lt_upper_bound; lia] ].
  f_equal.
  pose proof (Z.div_mod (t / 60) 10 ltac:(lia)).
  pose proof (Z.div_mod (t mod 60) 10 ltac:(lia)).
  pose proof (Z.div_mod t 60 ltac:(lia)).
  lia.
Qed.

Lemma formatTime_label_roundtrip_witness :
  parse_label (formatTime 3725000) = Some 3725.
Proof.
  apply (formatTime_label_roundtrip 3725000 ltac:(lia) ltac:(lia)).
Defined.

Example formatTime_sample : formatTime 65000 = "01:05"%string.
Proof. reflexivity. Qed.

(** * Overlay while paused *)





(** * Composition of the video handlers *)

Lemma handle_status_mounted : forall s t,
  videoMounted (fst (handlePlaybackStatusUpdate s t)) = videoMounted s.
Proof.
  intros s [st|]; [|reflexivity]. unfold handlePlaybackStatusUpdate.
  destruct (isSeeking s), (didJustFinish st); reflexivity.
Qed.

Lemma handle_status_isFullscreen : forall s t,
  isFullscreen (fst (handlePlaybackStatusUpdate s t)) = isFullscreen s.
Proof.
  intros s [st|]; [|reflexivity]. unfold handlePlaybackStatusUpdate.
  destruct (isSeeking s), (didJustFinish st); reflexivity.
Qed.

Definition finished_tick (t : AVPlaybackStatus) : bool :=
  match t with Loaded st => didJustFinish st | NotLoaded => false end.

Lemma run_ticks_cmds_mounted : forall ts s,
  videoMounted s = true ->
  videoMounted (fst (run_ticks s ts)) = true
  /\ snd (run_ticks s ts)
     = repeat (SetPositionAsync 0) (List.length (filter finished_tick ts)).
Proof.
  induction ts as [|t ts IH]; intros s Hm; [split; [exact Hm | reflexivity]|].
  cbn [run_ticks].
  destruct (handlePlaybackStatusUpdate s t) as [s1 c1] eqn:E.
  assert (Hm1 : videoMounted s1 = true)
    by (rewrite <- Hm, <- (handle_status_mounted s t), E; reflexivity).
  destruct (IH s1 Hm1) as [IHm IHc].
  destruct (run_ticks s1 ts) as [s2 c2]. simpl in IHm, IHc |- *.
  split; [exact IHm|]. subst c2.
  assert (Hc1 : c1 = if finished_tick t then [SetPositionAsync 0] else []).
  { destruct t as [st|]; [|injection E as _ <-; reflexivity].
    unfold handlePlaybackStatusUpdate, on_ref in E. rewrite Hm in E. simpl.
    destruct (didJustFinish st); injection E as _ <-; reflexivity. }
  subst c1. destruct (finished_tick t); reflexivity.
Qed.

(** On a mounted player, the only commands a run of status ticks issues are
    seeks to 0, one per loaded tick reporting [didJustFinish]. *)
Theorem ticks_issue_only_rewinds (s : Screen) (ticks : list AVPlaybackStatus)
  (Hmounted : videoMounted s = true) :
  snd (run_ticks s ticks)
  = repeat (SetPositionAsync 0) (List.length (filter finished_tick ticks)).
Proof. exact (proj2 (run_ticks_cmds_mounted ticks s Hmounted)). Qed.

Lemma ticks_issue_only_rewinds_witness :
  snd (run_ticks initial_screen
         [tick 1000 (Some 5000) true false false; NotLoaded;
          tick 5000 (Some 5000) false false true])
  = [SetPositionAsync 0].
Proof.
  apply (ticks_issue_only_rewinds initial_screen
           [tick 1000 (Some 5000) true false false; NotLoaded;
            tick 5000 (Some 5000) false false true] eq_refl).
Defined.

(** A whole scrub gesture on a mounted player (slide start, any status
    ticks, slide end at [v]): the start pauses the player, the ticks leave
    the displayed position where it was, and the end seeks once to [v],
    shows [v], resumes playback and ends the gesture. *)
Theorem scrub_gesture (s : Screen) (ticks : list AVPlaybackStatus) (v : Z)
  (Hmounted : videoMounted s = true) :
  let '(s1, c1) := handleSeekStart s in
  let '(s2, _) := run_ticks s1 ticks in
  let '(s3, c3) := handleSeekComplete s2 (VNum v) in
  c1 = [PauseAsync]
  /\ position s2 = position s
  /\ isSeeking s2 = true
  /\ c3 = [SetPositionAsync v; FadeInControls; PlayAsync]
  /\ position s3 = v
  /\ isSeeking s3 = false.
Proof.
  unfold handleSeekStart at 1.
  set (s1 := set_isSeeking s true).
  assert (Hs1 : isSeeking s1 = true) by reflexivity.
  assert (Hm1 : videoMounted s1 = true) by exact Hmounted.
  pose proof (run_ticks_seeking_position ticks s1 Hs1) as Hp.
  pose proof (run_ticks_isSeeking ticks s1) as Hk.
  destruct (run_ticks_cmds_mounted ticks s1 Hm1) as [Hm2 _].
  destruct (run_ticks s1 ticks) as [s2 c2]. simpl in Hp, Hk, Hm2.
  unfold handleSeekComplete, handleSeek, on_ref. rewrite Hm2, Hmounted.
  repeat split; [exact Hp | rewrite Hk; exact Hs1].
Qed.

Lemma scrub_gesture_witness :
  let '(s1, c1) := handleSeekStart initial_screen in
  let '(s2, _) := run_ticks s1 [tick 3000 (Some 9000) false true false] in
  let '(s3, c3) := handleSeekComplete s2 (VNum 6000) in
  c1 = [PauseAsync]
  /\ position s2 = position initial_screen
  /\ isSeeking s2 = true
  /\ c3 = [SetPositionAsync 6000; FadeInControls; PlayAsync]
  /\ position s3 = 6000
  /\ isSeeking s3 = false.
Proof.
  exact (scrub_gesture initial_screen [tick 3000 (Some 9000) false true false]
           6000 eq_refl).
Defined.

(** * Fullscreen flag *)

(** The fullscreen flag a run of fullscreen events should leave: the last
    will-present or will-dismiss event decides, other codes keep it. *)
Definition last_edge (b : bool) (evs : list Z) : bool :=
  fold_left (fun b e => if Z.eqb e WILL_PRESENT then true
                        else if Z.eqb e WILL_DISMISS then false else b) evs b.

Definition overlay_or_lock (c : Cmd) : bool :=
  match c with LockAsync _ | FadeInControls => true | _ => false end.

(** Over any run of fullscreen events, [isFullscreen] ends as the last
    will-present/will-dismiss edge says (unchanged when there is none); the
    events never touch the position, duration, playing or seeking state and
    issue only orientation locks and overlay fade-ins, never a player
    command. *)
Theorem fullscreen_events_effects : forall (evs : list Z) (s : Screen),
  let s' := fst (run_fullscreen_events s evs) in
  isFullscreen s' = last_edge (isFullscreen s) evs
  /\ position s' = position s /\ duration s' = duration s
  /\ isPlaying s' = isPlaying s /\ isSeeking s' = isSeeking s
  /\ forallb overlay_or_lock (snd (run_fullscreen_events s evs)) = true.
Proof.
  induction evs as [|e es IH]; intros s; [repeat split; reflexivity|].
  cbn [run_fullscreen_events].
  destruct (handleFullscreenUpdate s e) as [s1 c1] eqn:E.
  specialize (IH s1).
  destruct (run_fullscreen_events s1 es) as [s2 c2]. simpl in IH |- *.
  destruct IH as (Hf & Hp & Hd & Hi & Hk & Hc).
  rewrite forallb_app, Hc, andb_true_r.
  unfold handleFullscreenUpdate in E. unfold last_edge in *. simpl.
  destruct (Z.eqb e WILL_PRESENT); [|destruct (Z.eqb e WILL_DISMISS)];
    injection E as <- <-; rewrite Hf, Hp, Hd, Hi, Hk; repeat split.
Qed.

(** * Web view screen *)

Example parseInt_samples :
  parseInt " 07x" = Some 7 /\ parseInt "" = None /\ parseInt "-3" = Some (-3)
  /\ parseInt (keep_digits "1a0") = Some 10.
Proof. repeat split; reflexivity. Qed.

Definition is_schedule (c : WCmd) : bool :=
  match c with Schedule _ => true | WAlert _ _ => false end.

Definition count_schedules (cs : list WCmd) : nat :=
  List.length (filter is_schedule cs).

Lemma count_schedules_app : forall a b,
  count_schedules (a ++ b) = (count_schedules a + count_schedules b)%nat.
Proof. intros a b. unfold count_schedules. rewrite filter_app, length_app. reflexivity. Qed.

Lemma web_step_shape : forall w e,
  loadedUrl (fst (web_step w e)) = loadedUrl w
  /\ permissionsGranted (fst (web_step w e)) = permissionsGranted w
  /\ (hasNotifiedOnLoad w = true -> hasNotifiedOnLoad (fst (web_step w e)) = true)
  /\ (snd (web_step w e) = []
      \/ (hasNotifiedOnLoad w = false
          /\ hasNotifiedOnLoad (fst (web_step w e)) = true
          /\ snd (web_step w e) = [Schedule (load_notification (loadedUrl w))])).
Proof.
  intros [pg iu lu il hn mv we cf] [|ev|ev]; simpl.
  - repeat split; auto.
  - unfold handleLoadingEnd. simpl.
    destruct pg, hn,
             (negb (ne_loading ev) && negb (String.eqb (ne_title ev) "Webpage not available"))%bool;
      simpl; (split; [reflexivity|]); (split; [reflexivity|]);
      (split; [intros Hx; first [reflexivity | discriminate Hx]|]);
      first [left; reflexivity | right; repeat split].
  - unfold handleLoadingEnd. simpl.
    destruct pg, hn,
             (negb (ne_loading ev) && negb (String.eqb (ne_title ev) "Webpage not available"))%bool;
      simpl; (split; [reflexivity|]); (split; [reflexivity|]);
      (split; [intros Hx; first [reflexivity | discriminate Hx]|]);
      first [left; reflexivity | right; repeat split].
Qed.

Lemma run_web_notified : forall es w,
  hasNotifiedOnLoad w = true ->
  count_schedules (snd (run_web w es)) = 0%nat
  /\ hasNotifiedOnLoad (fst (run_web w es)) = true
  /\ loadedUrl (fst (run_web w es)) = loadedUrl w.
Proof.
  induction es as [|e es IH]; intros w Hn; [repeat split; auto|].
  cbn [run_web].
  destruct (web_step_shape w e) as (Hl & _ & Hk & Hc).
  destruct (web_step w e) as [w1 c1] eqn:E. simpl in *.
  destruct (IH w1 (Hk Hn)) as (I1 & I2 & I3).
  destruct (run_web w1 es) as [w2 c2]. simpl in *.
  rewrite count_schedules_app, I1.
  destruct Hc as [->|(Hf & _)]; [|congruence].
  repeat split; congruence.
Qed.

(** Between two URL changes the "fully loaded" notification is scheduled at
    most once, whatever the load-start, load-end and error events (none at
    all once it has been sent), and it always names the loaded URL. *)
Theorem load_notification_at_most_once : forall es w,
  (count_schedules (snd (run_web w es)) <= 1)%nat
  /\ (hasNotifiedOnLoad w = true -> count_schedules (snd (run_web w es)) = 0%nat)
  /\ forall c, In c (snd (run_web w es)) -> is_schedule c = true ->
       c = Schedule (load_notification (loadedUrl w)).
Proof.
  induction es as [|e es IH]; intros w;
    [split; [apply Nat.le_0_l | split; [intros _; reflexivity | intros c []]]|].
  cbn [run_web].
  destruct (web_step_shape w e) as (Hl & _ & Hk & Hc).
  destruct (web_step w e) as [w1 c1] eqn:E. simpl in Hl, Hk, Hc.
  destruct (IH w1) as (I1 & I2 & I3).
  destruct (run_web w1 es) as [w2 c2] eqn:E2. simpl in I1, I2, I3 |- *.
  rewrite count_schedules_app.
  destruct Hc as [->|(Hf & Hn1 & ->)].
  - simpl. split; [|split].
    + exact I1.
    + intros Hn. apply I2, Hk, Hn.
    + intros c Hin Hs. rewrite <- Hl. apply I3; assumption.
  - pose proof (run_web_notified es w1 Hn1) as (Z1 & _ & _).
    rewrite E2 in Z1. simpl in Z1. rewrite Z1. simpl. split; [|split].
    + apply le_n.
    + intros Hn. congruence.
    + intros c [<-|Hin] Hs; [reflexivity|].
      exfalso. unfold count_schedules in Z1.
      apply length_zero_iff_nil in Z1.
      assert (In c (filter is_schedule c2)) by (apply filter_In; auto).
      rewrite Z1 in H. exact H.
Qed.

Definition DEFAULT_URL : string := "https://expo.dev/".

(** The web screen after the permission request was granted. *)
Definition granted_web : WebScreen :=
  {| permissionsGranted := true; inputUrl := DEFAULT_URL; loadedUrl := DEFAULT_URL;
     isLoading := false; hasNotifiedOnLoad := false; isModalVisible := false;
     webViewError := None;
     config := {| delay := "3"; message := "This is a custom notification!";
                  targetScreen := "WebView"; isNavigable := false |} |}.

(** A parser for the samples: it knows two spellings of two hosts. *)
Definition sample_URL (s : string) : option URLObject :=
  if (String.eqb s "https://expo.dev" || String.eqb s "https://expo.dev/")%bool
  then Some (mkURL "https:" "https://expo.dev/")
  else if (String.eqb s "https://example.com" || String.eqb s "https://example.com/")%bool
  then Some (mkURL "https:" "https://example.com/")
  else None.

(** [loadWebView]: an input the validator rejects only raises the alert and
    changes nothing; an accepted one puts the normalized URL in the input
    field and in [loadedUrl], and resets the load-notification flag and the
    error only when that URL differs from the one loaded. *)
Theorem loadWebView_outcomes (URL : string -> option URLObject) (w : WebScreen) :
  let r := validateAndNormalizeUrl URL (inputUrl w) in
  (isValid r = false ->
     loadWebView URL w
     = (w, [WAlert "Invalid URL" "Please enter a valid website link (must be http/https)."]))
  /\ (forall n, isValid r = true -> normalizedUrl r = Some n -> n <> ""%string ->
        let w' := fst (loadWebView URL w) in
        snd (loadWebView URL w) = []
        /\ inputUrl w' = n /\ loadedUrl w' = n
        /\ permissionsGranted w' = permissionsGranted w
        /\ (n = loadedUrl w -> hasNotifiedOnLoad w' = hasNotifiedOnLoad w
                               /\ webViewError w' = webViewError w)
        /\ (n <> loadedUrl w -> hasNotifiedOnLoad w' = false /\ webViewError w' = None)).
Proof.
  unfold loadWebView. cbv zeta.
  destruct (validateAndNormalizeUrl URL (inputUrl w)) as [v nu]. simpl.
  split.
  - intros ->. reflexivity.
  - intros n -> -> Hne.
    destruct (String.eqb_spec n "") as [E|_]; [contradiction|].
    destruct (String.eqb_spec n (loadedUrl w)) as [E|E]; simpl;
      repeat split; intros; try split; try congruence; contradiction.
Qed.

(** Loading again a URL the validator already returns unchanged does
    nothing: the state is kept and no alert is raised, so the
    load-notification flag is not reset. *)
Theorem loadWebView_reload_same (URL : string -> option URLObject) (w : WebScreen)
  (n : string)
  (Hv : validateAndNormalizeUrl URL (inputUrl w)
        = {| isValid := true; normalizedUrl := Some n |})
  (Hfix : validateAndNormalizeUrl URL n = {| isValid := true; normalizedUrl := Some n |})
  (Hne : n <> ""%string) :
  loadWebView URL (fst (loadWebView URL w)) = (fst (loadWebView URL w), []).
Proof.
  assert (Hw : inputUrl (fst (loadWebView URL w)) = n
               /\ loadedUrl (fst (loadWebView URL w)) = n
               /\ snd (loadWebView URL w) = []).
  { unfold loadWebView. rewrite Hv. cbn [isValid normalizedUrl].
    destruct (String.eqb_spec n "") as [E|_]; [contradiction|].
    destruct (String.eqb_spec n (loadedUrl w)) as [E|E]; simpl;
      (split; [|split]); congruence. }
  set (w1 := fst (loadWebView URL w)) in *. clearbody w1.
  destruct Hw as [Hi [Hl _]].
  unfold loadWebView. rewrite Hi, Hfix. cbn [isValid normalizedUrl].
  destruct (String.eqb_spec n "") as [E|_]; [contradiction|].
  rewrite Hl, String.eqb_refl. simpl.
  destruct w1; simpl in *; subst; reflexivity.
Qed.

Lemma loadWebView_reload_same_witness :
  let w := {| permissionsGranted := true; inputUrl := "  example.com ";
              loadedUrl := DEFAULT_URL; isLoading := false; hasNotifiedOnLoad := true;
              isModalVisible := false; webViewError := None;
              config := config granted_web |} in
  loadWebView sample_URL (fst (loadWebView sample_URL w))
  = (fst (loadWebView sample_URL w), []).
Proof.
  intro w.
  apply (loadWebView_reload_same sample_URL w "https://example.com/"
           eq_refl eq_refl ltac:(discriminate)).
Defined.



(** The notification modal: a send either raises an alert and changes
    nothing (the modal stays open), or, with permission granted and
    [parseInt] of the delay text an integer [p] in [1, 10], schedules exactly
    one notification firing after [p] seconds, carrying [targetScreen] in its
    data exactly when the modal is navigable, and closes the modal. *)
Theorem handleSendNotification_outcomes (w : WebScreen) :
  let r := handleSendNotification w in
  (fst r = w /\ exists t m, snd r = [WAlert t m])
  \/ (exists p opts,
        parseInt (delay (config w)) = Some p /\ 1 <= p <= 10
        /\ permissionsGranted w = true
        /\ snd r = [Schedule opts]
        /\ fst r = closeModal w /\ isModalVisible (fst r) = false
        /\ (forall rnd, trigger_seconds (scheduleLocalNotification opts rnd) = inject_Z p)
        /\ data opts = Some (if isNavigable (config w)
                             then [("targetScreen"%string, targetScreen (config w))]
                             else [])).
Proof.
  unfold handleSendNotification. cbv zeta.
  destruct (parseInt (delay (config w))) as [p|] eqn:Ep;
    [|left; split; [reflexivity | eexists; eexists; reflexivity]].
  destruct ((p <? 1) || (10 <? p))%bool eqn:Er;
    [left; split; [reflexivity | eexists; eexists; reflexivity]|].
  destruct (permissionsGranted w) eqn:Eg;
    [|left; split; [reflexivity | eexists; eexists; reflexivity]].
  right. apply orb_false_iff in Er as [E1 E2].
  apply Z.ltb_ge in E1. apply Z.ltb_ge in E2.
  eexists p, _. repeat split; try reflexivity; try lia.
Qed.

(** Pressing either notification button and sending right away (permission
    granted) schedules one notification after the default 3 seconds, titled
    by the button, whose data names the video player route for the
    navigable button and is empty otherwise; the modal closes. *)
Theorem openModal_then_send (w : WebScreen) (isNav : bool)
  (Hp : permissionsGranted w = true) :
  let r := handleSendNotification (openModal w isNav) in
  isModalVisible (fst r) = false
  /\ exists opts, snd r = [Schedule opts]
       /\ title opts = (if isNav then "Custom Navigation Alert" else "Custom Action Alert")%string
       /\ data opts = Some (if isNav then [("targetScreen"%string, "VideoPlayer"%string)] else [])
       /\ (forall rnd, trigger_seconds (scheduleLocalNotification opts rnd) = 3%Q).
Proof.
  unfold handleSendNotification, openModal. simpl. rewrite Hp.
  split; [reflexivity|]. eexists. split; [reflexivity|].
  destruct isNav; repeat split.
Qed.

Lemma openModal_then_send_witness :
  isModalVisible (fst (handleSendNotification (openModal granted_web true))) = false.
Proof. apply (openModal_then_send granted_web true eq_refl). Defined.

(** * Notification taps *)

Lemma to_dec_head : forall f n acc, 0 <= n ->
  exists d rest, 0 <= d < 10 /\ to_dec_aux (S f) n acc = String (digit d) rest.
Proof.
  induction f as [|f IH]; intros n acc Hn.
  - exists (n mod 10). cbn [to_dec_aux].
    destruct (n <? 10); eexists; (split; [apply Z.mod_pos_bound; lia | reflexivity]).
  - cbn [to_dec_aux]. destruct (n <? 10).
    + exists (n mod 10). eexists. split; [apply Z.mod_pos_bound; lia | reflexivity].
    + apply IH. apply Z.div_pos; lia.
Qed.

Lemma js_String_nat_not_word : forall (i : nat) (c : ascii) (r : string),
  digit_val c = None -> String.eqb (js_String (Z.of_nat i)) (String c r) = false.
Proof.
  intros i c r Hc. unfold js_String.
  destruct (Z.ltb_spec (Z.of_nat i) 0) as [H|_]; [lia|].
  destruct (to_dec_head (Z.to_nat (Z.log2 (Z.abs (Z.of_nat i)))) (Z.abs (Z.of_nat i))
              EmptyString ltac:(lia)) as (d & rest & Hd & ->).
  apply String.eqb_neq. intro E. injection E as Ec _.
  rewrite <- Ec, (digit_val_digit d Hd) in Hc. discriminate.
Qed.

Lemma js_in_array_route : forall t n,
  t = "WebView"%string \/ t = "VideoPlayer"%string -> js_in_array t n = false.
Proof.
  intros t n Ht. unfold js_in_array.
  apply orb_false_iff. split.
  - apply not_true_iff_false. intro H. apply existsb_exists in H as [i [_ Hi]].
    destruct Ht as [->| ->]; rewrite js_String_nat_not_word in Hi;
      solve [discriminate | reflexivity].
  - destruct Ht as [->| ->]; reflexivity.
Qed.

(** The tap listener tests [targetScreen in routes.map(r => r.name)], which
    looks for a property name of the array (an index, [length] or a
    prototype method), not for an element: for a notification whose
    [targetScreen] is one of the two route names it never navigates,
    whatever the navigator's routes. *)
Theorem notification_tap_never_navigates (data : list (string * string))
  (routeNames : list string) (t : string)
  (Ht : lookup_key "targetScreen" data = Some t)
  (Hroute : t = "WebView"%string \/ t = "VideoPlayer"%string) :
  on_notification_response data routeNames = None.
Proof.
  unfold on_notification_response. rewrite Ht, (js_in_array_route t _ Hroute).
  rewrite andb_false_r. reflexivity.
Qed.

Lemma notification_tap_never_navigates_witness :
  on_notification_response [("targetScreen"%string, "VideoPlayer"%string)]
    ["WebView"; "VideoPlayer"]%string = None.
Proof.
  apply (notification_tap_never_navigates [("targetScreen"%string, "VideoPlayer"%string)]
           ["WebView"; "VideoPlayer"]%string "VideoPlayer" eq_refl (or_intror eq_refl)).
Defined.

Example notification_tap_index_sample :
  on_notification_response [("targetScreen"%string, "0"%string)] ["WebView"%string]
  = Some "0"%string.
Proof. reflexivity. Qed.

(** * Trimming *)

Lemma rev_str_app : forall a b acc,
  rev_str (a ++ b) acc = rev_str b (rev_str a acc).
Proof. induction a as [|c a IH]; intros b acc; simpl; [reflexivity | apply IH]. Qed.

Lemma append_assoc_str : forall a b c : string,
  (a ++ (b ++ c))%string = ((a ++ b) ++ c)%string.
Proof. induction a as [|x a IH]; intros b c; simpl; [reflexivity | rewrite IH; reflexivity]. Qed.

Lemma rev_str_acc : forall s acc, rev_str s acc = (rev_str s EmptyString ++ acc)%string.
Proof.
  induction s as [|c s IH]; intros acc; simpl; [reflexivity|].
  rewrite (IH (String c acc)), (IH (String c EmptyString)).
  rewrite <- append_assoc_str. reflexivity.
Qed.

Lemma rev_str_involutive : forall s, rev_str (rev_str s EmptyString) EmptyString = s.
Proof.
  induction s as [|c s IH]; simpl; [reflexivity|].
  rewrite (rev_str_acc s (String c EmptyString)), rev_str_app. simpl. rewrite IH.
  reflexivity.
Qed.

Lemma trim_start_idem : forall s, trim_start (trim_start s) = trim_start s.
Proof.
  induction s as [|c s IH]; simpl; [reflexivity|].
  destruct (is_ws c) eqn:E; [exact IH | simpl; rewrite E; reflexivity].
Qed.

Lemma trim_start_snoc : forall x c, is_ws c = false ->
  exists z, trim_start (x ++ String c EmptyString) = (z ++ String c EmptyString)%string.
Proof.
  induction x as [|a x IH]; intros c Hc; simpl.
  - rewrite Hc. exists EmptyString. reflexivity.
  - destruct (is_ws a); [apply IH, Hc|]. exists (String a x). reflexivity.
Qed.

Lemma trim_start_trim_end : forall t,
  trim_start (trim_end (trim_start t)) = trim_end (trim_start t).
Proof.
  intros t.
  assert (Hh : trim_start t = EmptyString
               \/ exists c r, trim_start t = String c r /\ is_ws c = false).
  { induction t as [|c t IH]; simpl; [left; reflexivity|].
    destruct (is_ws c) eqn:E; [exact IH | right; eauto]. }
  destruct Hh as [-> | (c & r & -> & Hc)]; [reflexivity|].
  unfold trim_end.
  assert (Hr : rev_str (String c r) EmptyString
               = (rev_str r EmptyString ++ String c EmptyString)%string)
    by (simpl; apply rev_str_acc).
  rewrite Hr.
  destruct (trim_start_snoc (rev_str r EmptyString) c Hc) as [z ->].
  rewrite rev_str_app. simpl. rewrite Hc. reflexivity.
Qed.

Lemma trim_idem : forall s, trim (trim s) = trim s.
Proof.
  intros s. unfold trim at 1. unfold trim.
  rewrite trim_start_trim_end. unfold trim_end.
  rewrite rev_str_involutive, trim_start_idem. reflexivity.
Qed.

(** The URL validator ignores white space around its input: validating the
    trimmed input, or the input with a leading space or tab, gives the same
    result as validating the input itself. *)
Theorem validate_ignores_surrounding_space (URL : string -> option URLObject)
  (rawUrl : string) :
  validateAndNormalizeUrl URL (trim rawUrl) = validateAndNormalizeUrl URL rawUrl
  /\ validateAndNormalizeUrl URL (String " " rawUrl) = validateAndNormalizeUrl URL rawUrl
  /\ validateAndNormalizeUrl URL (String (ascii_of_nat 9) rawUrl)
     = validateAndNormalizeUrl URL rawUrl.
Proof.
  unfold validateAndNormalizeUrl. rewrite trim_idem. split; [reflexivity|].
  split; reflexivity.
Qed.
